(** * tower-governor: a shallow embedding of the admission middleware

    Sources: [src/src/governor.rs] (configuration builder, [GovernorConfig],
    [Governor] and its [Clone]) and [src/src/lib.rs] ([Service] impl for
    [Governor], [ResponseFuture] and its [poll]).

    The rate limiter of the [governor] crate, the wrapped service [S], its
    future and the error renderer are external: they enter as section
    variables.  The shared [Arc<RateLimiter>] is modelled by a heap of
    limiter cells indexed by an allocation id; cloning the [Arc] copies the
    id.  Calls made to external capabilities (the limiter's [check], the
    inner service's [call]) are recorded in a trace kept in the world. *)

From Stdlib Require Import ZArith String Ascii List Bool Lia.
Import ListNotations.
Open Scope string_scope.
Open Scope list_scope.
Open Scope Z_scope.

(** ** Rust core types *)

(** [Result<T, E>] *)
Inductive result (T E : Type) : Type :=
| Ok (t : T)
| Err (e : E).
Arguments Ok {T E} t.
Arguments Err {T E} e.

(** [std::task::Poll<T>] *)
Inductive Poll (T : Type) : Type :=
| Ready (t : T)
| Pending.
Arguments Ready {T} t.
Arguments Pending {T}.

(** Outcome of a computation that may panic ([unwrap], [expect]). *)
Inductive outcome (A : Type) : Type :=
| Ret (a : A)
| Panic (msg : string).
Arguments Ret {A} a.
Arguments Panic {A} msg.

Definition obind {A B} (m : outcome A) (f : A -> outcome B) : outcome B :=
  match m with
  | Ret a => f a
  | Panic msg => Panic msg
  end.

Notation "x <- m ;; k" := (obind m (fun x => k))
  (at level 61, m at next level, right associativity).

(** [Option::unwrap] *)
Definition unwrap {A} (o : option A) : outcome A :=
  match o with
  | Some a => Ret a
  | None => Panic "called `Option::unwrap()` on a `None` value"
  end.

(** [Option::expect] *)
Definition expect {A} (o : option A) (msg : string) : outcome A :=
  match o with
  | Some a => Ret a
  | None => Panic msg
  end.

(** ** [std::time::Duration]: whole seconds (u64) and nanoseconds (< 10^9) *)

Record Duration := mkDuration { secs : Z; nanos : Z }.

Definition NANOS_PER_SEC : Z := 1000000000.

Definition duration_wf (d : Duration) : Prop :=
  0 <= secs d < 2 ^ 64 /\ 0 <= nanos d < NANOS_PER_SEC.

Definition from_secs (s : Z) : Duration := mkDuration s 0.

Definition from_millis (ms : Z) : Duration :=
  mkDuration (ms / 1000) ((ms mod 1000) * 1000000).

Definition from_nanos (ns : Z) : Duration :=
  mkDuration (ns / NANOS_PER_SEC) (ns mod NANOS_PER_SEC).

(** [Duration::as_nanos] (u128, so no wrap-around) *)
Definition as_nanos (d : Duration) : Z := secs d * NANOS_PER_SEC + nanos d.

(** [Duration::as_secs]: the whole seconds, the fraction is dropped *)
Definition as_secs (d : Duration) : Z := secs d.

Definition duration_eqb (a b : Duration) : bool :=
  (secs a =? secs b) && (nanos a =? nanos b).

(** ** [http::Method]: a method is its token ("GET", "POST", ...) *)

Definition Method := string.
Definition GET : Method := "GET".
Definition POST : Method := "POST".

(** [<[Method]>::contains] *)
Definition contains (ms : list Method) (m : Method) : bool :=
  existsb (fun m' => String.eqb m' m) ms.

Fixpoint methods_list_eqb (a b : list Method) : bool :=
  match a, b with
  | [], [] => true
  | x :: a', y :: b' => String.eqb x y && methods_list_eqb a' b'
  | _, _ => false
  end.

(** [Option<Vec<Method>> == Option<Vec<Method>>] *)
Definition methods_eqb (a b : option (list Method)) : bool :=
  match a, b with
  | None, None => true
  | Some x, Some y => methods_list_eqb x y
  | _, _ => false
  end.

(** ** [http::HeaderMap] with string names and values *)

Definition HeaderMap := list (string * string).

Definition header_new : HeaderMap := [].

Definition header_remove (k : string) (m : HeaderMap) : HeaderMap :=
  filter (fun kv => negb (String.eqb (fst kv) k)) m.

(** [HeaderMap::insert]: replaces every value of an existing name (keeping
    the position of the first), appends otherwise. *)
Fixpoint header_insert (k v : string) (m : HeaderMap) : HeaderMap :=
  match m with
  | [] => [(k, v)]
  | (k', v') :: t =>
      if String.eqb k' k then (k, v) :: header_remove k t
      else (k', v') :: header_insert k v t
  end.

(** Lookup of an already parsed (lowercase) header name. *)
Fixpoint header_lookup (k : string) (m : HeaderMap) : option string :=
  match m with
  | [] => None
  | (k', v) :: t => if String.eqb k' k then Some v else header_lookup k t
  end.

(** [http]'s [HEADER_CHARS] table: the token characters of a header name,
    upper-case letters mapped to lower case; [None] for any other byte. *)
Definition header_char (c : ascii) : option ascii :=
  let n := nat_of_ascii c in
  if andb (Nat.leb 65 n) (Nat.leb n 90) then Some (ascii_of_nat (n + 32))
  else if orb (andb (Nat.leb 97 n) (Nat.leb n 122)) (andb (Nat.leb 48 n) (Nat.leb n 57))
  then Some c
  else if existsb (fun d => Ascii.eqb d c) (list_ascii_of_string "!#$%&'*+-.^_`|~")
  then Some c
  else None.

Fixpoint header_chars (s : string) : option string :=
  match s with
  | EmptyString => Some EmptyString
  | String c t =>
      match header_char c, header_chars t with
      | Some c', Some t' => Some (String c' t')
      | _, _ => None
      end
  end.

(** [HdrName::from_bytes] on a [&str] key: empty or longer than
    [MAX_HEADER_NAME_LEN] (65535) is invalid, as is any byte outside the
    table; otherwise the lower-cased name. *)
Definition header_name_of_str (s : string) : option string :=
  if (Z.of_nat (String.length s) =? 0) || (65535 <? Z.of_nat (String.length s)) then None
  else header_chars s.

(** [HeaderMap::get] with a [&str] key: an invalid name finds nothing,
    a valid one is looked up case-insensitively. *)
Definition header_get (k : string) (m : HeaderMap) : option string :=
  match header_name_of_str k with
  | Some n => header_lookup n m
  | None => None
  end.

Fixpoint decimal_aux (fuel : nat) (n : Z) (acc : string) : string :=
  match fuel with
  | O => acc
  | S fuel' =>
      let acc' := String (ascii_of_nat (48 + Z.to_nat (n mod 10))) acc in
      if n <? 10 then acc' else decimal_aux fuel' (n / 10) acc'
  end.

(** [HeaderValue::from(u64)]: the decimal text of the number (at most 20
    digits for a u64). *)
Definition header_value_of_u64 (n : Z) : string := decimal_aux 20 n EmptyString.

(** ** [GovernorError] (the variant the middleware produces) *)

Inductive GovernorError :=
| TooManyRequests (wait_time : Z) (headers : option HeaderMap).

(** ** [governor::Quota] and [NonZeroU32] *)

Record Quota := mkQuota { max_burst : Z; replenish_1_per : Duration }.

(** [Quota::with_period]: [None] exactly for a zero period. *)
Definition with_period (replenish_1_per : Duration) : option Quota :=
  if as_nanos replenish_1_per =? 0 then None
  else Some (mkQuota 1 replenish_1_per).

(** [Quota::allow_burst] *)
Definition allow_burst (q : Quota) (max_burst : Z) : Quota :=
  mkQuota max_burst (replenish_1_per q).

(** [NonZeroU32::new] *)
Definition NonZeroU32_new (n : Z) : option Z :=
  if n =? 0 then None else Some n.

(** ** [governor]'s [Gcra::new], behind [RateLimiter::direct] *)

Definition U64_MAX : Z := 2 ^ 64 - 1.

(** [Duration::checked_mul(u32)]: the nanoseconds are multiplied in u64 and
    carried into the seconds, which must stay within u64. *)
Definition duration_checked_mul (d : Duration) (rhs : Z) : option Duration :=
  let total_nanos := nanos d * rhs in
  let extra_secs := total_nanos / NANOS_PER_SEC in
  let nanos' := total_nanos mod NANOS_PER_SEC in
  let s := secs d * rhs in
  if s <=? U64_MAX then
    let secs' := s + extra_secs in
    if secs' <=? U64_MAX then Some (mkDuration secs' nanos') else None
  else None.

Definition MUL_OVERFLOW_MSG : string := "overflow when multiplying duration by scalar".
Definition NANOS_OVERFLOW_MSG : string := "Duration is longer than 584 years".

(** [impl Mul<u32> for Duration] *)
Definition duration_mul (d : Duration) (rhs : Z) : outcome Duration :=
  expect (duration_checked_mul d rhs) MUL_OVERFLOW_MSG.

(** [impl From<Duration> for Nanos]: [as_nanos()] (u128) into u64. *)
Definition nanos_of_duration (d : Duration) : outcome Z :=
  expect (if as_nanos d <=? U64_MAX then Some (as_nanos d) else None)
         NANOS_OVERFLOW_MSG.

Record Gcra := mkGcra { gcra_t : Z; gcra_tau : Z }.

(** [Gcra::new]: [tau] is [replenish_1_per * max_burst], [t] is
    [replenish_1_per], both in u64 nanoseconds. *)
Definition gcra_new (quota : Quota) : outcome Gcra :=
  prod <- duration_mul (replenish_1_per quota) (max_burst quota) ;;
  tau <- nanos_of_duration prod ;;
  t <- nanos_of_duration (replenish_1_per quota) ;;
  Ret (mkGcra t tau).

(** [DEFAULT_PERIOD], [DEFAULT_BURST_SIZE] *)
Definition DEFAULT_PERIOD : Duration := from_millis 500.
Definition DEFAULT_BURST_SIZE : Z := 8.

(** ** A concrete instance of the collaborators

    A token-count limiter (a denial reports a wait of 1.25 s), requests
    reduced to their method, an inner service counting its calls whose
    futures answer [Echo "ok"], and a renderer that keeps the error. *)

Module Toy.
Definition Lim := Z.
Definition direct (q : Quota) : Lim := max_burst q.
Definition NotUntil := Duration.
Definition check (l : Lim) : Lim * result unit NotUntil :=
  if 0 <? l then (l - 1, Ok tt) else (l, Err (mkDuration 1 250000000)).
Definition Instant := unit.
Definition wait_time_from (n : NotUntil) (_ : Instant) : Duration := n.
Inductive Response := Rendered (e : GovernorError) | Echo (body : string).
Definition Req := Method.
Definition req_method (r : Req) : Method := r.
Definition Ctx := unit.
Definition Svc := nat.
Definition E := string.
Definition F := Req.
Definition clone_inner (s : Svc) : Svc := s.
Definition inner_poll_ready (s : Svc) (_ : Ctx) : Svc * Poll (result unit E) :=
  (s, Ready (Ok tt)).
Definition inner_call (s : Svc) (r : Req) : Svc * F := (Datatypes.S s, r).
Definition fut_poll (f : F) (_ : Ctx) : F * Poll (result Response E) :=
  (f, Ready (Ok (Echo "ok"))).
End Toy.

(** ** The middleware, over its external collaborators *)

Section Middleware.

(** State of one [governor::RateLimiter] (direct, in-memory) built for a
    quota once its [Gcra::new] has succeeded. *)
Context {Lim : Type}.
Context {direct : Quota -> Lim}.
(** [RateLimiter::check]: consumes a cell when one is available, otherwise
    returns a [NotUntil]. *)
Context {NotUntil : Type}.
Context {check : Lim -> Lim * result unit NotUntil}.
(** [DefaultClock::now] values and [NotUntil::wait_time_from]. *)
Context {Instant : Type}.
Context {wait_time_from : NotUntil -> Instant -> Duration}.

(** [Response<Body>]; the default renderer [|mut e| e.as_response()] lives
    in [errors.rs], it enters as a variable. *)
Context {Response : Type}.
Context {default_error_handler : GovernorError -> Response}.

(** The wrapped service [S]: requests, its error type [E], its future [F],
    its [Clone], [poll_ready] and [call], and the future's [poll]. The
    service type [S] is named [Svc] here. *)
Context {Req : Type}.
Context {req_method : Req -> Method}.
Context {Ctx : Type}.
Context {Svc : Type} {E : Type} {F : Type}.
Context {clone_inner : Svc -> Svc}.
Context {inner_poll_ready : Svc -> Ctx -> Svc * Poll (result unit E)}.
Context {inner_call : Svc -> Req -> Svc * F}.
Context {fut_poll : F -> Ctx -> F * Poll (result Response E)}.

(** [ErrorHandler(Arc<dyn Fn(GovernorError) -> Response<Body>>)] *)
Definition ErrorHandler := GovernorError -> Response.

(** [impl PartialEq for ErrorHandler] *)
Definition error_handler_eq (_ _ : ErrorHandler) : bool := true.

(** *** The world: heap of shared limiters and trace of external calls *)

Inductive Event :=
| EvCheck (limiter : nat)
| EvInnerCall (req : Req).

Record World := mkWorld {
  w_next : nat;
  w_cells : nat -> Lim;
  w_trace : list Event }.

(** [Arc::new]: allocates a fresh cell. *)
Definition arc_new (w : World) (l : Lim) : nat * World :=
  (w_next w,
   mkWorld (S (w_next w))
           (fun i => if Nat.eqb i (w_next w) then l else w_cells w i)
           (w_trace w)).

(** [self.limiter.check()] on the shared limiter [id]. *)
Definition limiter_check (w : World) (id : nat) : World * result unit NotUntil :=
  let (l', r) := check (w_cells w id) in
  (mkWorld (w_next w)
           (fun i => if Nat.eqb i id then l' else w_cells w i)
           (w_trace w ++ [EvCheck id]),
   r).

(** *** [GovernorConfigBuilder], [GovernorConfig] *)

Record GovernorConfigBuilder := mkBuilder {
  period : Duration;
  burst_size : Z;
  methods : option (list Method);
  error_handler : ErrorHandler }.

(** [#[derive(PartialEq)]] on the builder: field-wise. *)
Definition builder_eqb (a b : GovernorConfigBuilder) : bool :=
  duration_eqb (period a) (period b) && (burst_size a =? burst_size b)
  && methods_eqb (methods a) (methods b)
  && error_handler_eq (error_handler a) (error_handler b).

Definition const_default : GovernorConfigBuilder :=
  mkBuilder DEFAULT_PERIOD DEFAULT_BURST_SIZE None default_error_handler.

(** [impl Default for GovernorConfigBuilder] *)
Definition builder_default : GovernorConfigBuilder := const_default.

Definition set_period (b : GovernorConfigBuilder) (d : Duration) :=
  mkBuilder d (burst_size b) (methods b) (error_handler b).
Definition per_second (b : GovernorConfigBuilder) (s : Z) := set_period b (from_secs s).
Definition per_millisecond (b : GovernorConfigBuilder) (ms : Z) := set_period b (from_millis ms).
Definition per_nanosecond (b : GovernorConfigBuilder) (ns : Z) := set_period b (from_nanos ns).
Definition set_burst_size (b : GovernorConfigBuilder) (n : Z) :=
  mkBuilder (period b) n (methods b) (error_handler b).
Definition set_methods (b : GovernorConfigBuilder) (ms : list Method) :=
  mkBuilder (period b) (burst_size b) (Some ms) (error_handler b).
Definition set_error_handler (b : GovernorConfigBuilder) (f : ErrorHandler) :=
  mkBuilder (period b) (burst_size b) (methods b) f.

Record GovernorConfig := mkConfig {
  cfg_limiter : nat;
  cfg_methods : option (list Method);
  cfg_error_handler : ErrorHandler }.

(** [RateLimiter::direct]: computes [Gcra::new(quota)] (which may panic),
    then the limiter's state. *)
Definition rate_limiter_direct (quota : Quota) : outcome Lim :=
  _ <- gcra_new quota ;;
  Ret (direct quota).

(** [GovernorConfigBuilder::finish] *)
Definition finish (w : World) (b : GovernorConfigBuilder)
  : outcome (World * option GovernorConfig) :=
  if negb (burst_size b =? 0) && negb (as_nanos (period b) =? 0) then
    q <- unwrap (with_period (period b)) ;;
    nz <- unwrap (NonZeroU32_new (burst_size b)) ;;
    lim <- rate_limiter_direct (allow_burst q nz) ;;
    let (id, w') := arc_new w lim in
    Ret (w', Some (mkConfig id (methods b) (error_handler b)))
  else Ret (w, None).

(** [impl Default for GovernorConfig] *)
Definition config_default (w : World) : outcome (World * GovernorConfig) :=
  r <- finish w builder_default ;;
  let (w', oc) := r in
  c <- unwrap oc ;;
  Ret (w', c).

Definition secure_builder : GovernorConfigBuilder :=
  mkBuilder (from_secs 4) 2 None default_error_handler.

(** [GovernorConfig::secure] *)
Definition secure (w : World) : outcome (World * GovernorConfig) :=
  r <- finish w secure_builder ;;
  let (w', oc) := r in
  c <- unwrap oc ;;
  Ret (w', c).

(** *** [Governor<S>] *)

Record Governor := mkGovernor {
  limiter : nat;
  g_methods : option (list Method);
  inner : Svc;
  g_error_handler : ErrorHandler }.

(** [impl Clone for Governor<S>] *)
Definition governor_clone (g : Governor) : Governor :=
  mkGovernor (limiter g) (g_methods g) (clone_inner (inner g)) (g_error_handler g).

(** [Governor::new] *)
Definition governor_new (i : Svc) (config : GovernorConfig) : Governor :=
  mkGovernor (cfg_limiter config) (cfg_methods config) i (cfg_error_handler config).

(** [GovernorLayer { config: Arc<GovernorConfig> }]; the config is
    immutable, so the [Arc] is its value. *)
Record GovernorLayer := mkGovernorLayer { config : GovernorConfig }.

(** [impl Clone for GovernorLayer] *)
Definition layer_clone (l : GovernorLayer) : GovernorLayer :=
  mkGovernorLayer (config l).

(** [impl Layer<S> for GovernorLayer]: [layer] *)
Definition layer (l : GovernorLayer) (i : Svc) : Governor := governor_new i (config l).

Definition set_inner (g : Governor) (i : Svc) : Governor :=
  mkGovernor (limiter g) (g_methods g) i (g_error_handler g).

(** *** [ResponseFuture] *)

Inductive Kind :=
| Passthrough (future : F)
| KError (error_response : option Response).

Record ResponseFuture := mkResponseFuture { rf_inner : Kind }.

(** The [expect] literal: a newline and 16 spaces, the sentence, a newline
    and 12 spaces. *)
Definition EXPECT_MSG : string :=
  String (ascii_of_nat 10) ("                " ++
  "<Governor as Service<Request<_>>>::call must produce Response<String> when GovernorError occurs."
  ++ String (ascii_of_nat 10) "            ")%string.

(** [impl Future for ResponseFuture]: [poll] *)
Definition poll (rf : ResponseFuture) (cx : Ctx)
  : outcome (ResponseFuture * Poll (result Response E)) :=
  match rf_inner rf with
  | Passthrough future =>
      let (future', p) := fut_poll future cx in
      Ret (mkResponseFuture (Passthrough future'), p)
  | KError error_response =>
      r <- expect error_response EXPECT_MSG ;;
      Ret (mkResponseFuture (KError None), Ready (Ok r))
  end.

(** *** [impl Service<Request<ReqBody>> for Governor<S>] *)

Definition poll_ready (g : Governor) (cx : Ctx) : Governor * Poll (result unit E) :=
  let (i, p) := inner_poll_ready (inner g) cx in
  (set_inner g i, p).

(** [self.inner.call(req)], wrapped as a [Passthrough] future. *)
Definition forward (w : World) (g : Governor) (req : Req)
  : World * Governor * ResponseFuture :=
  let (i, future) := inner_call (inner g) req in
  (mkWorld (w_next w) (w_cells w) (w_trace w ++ [EvInnerCall req]),
   set_inner g i,
   mkResponseFuture (Passthrough future)).

Definition call (w : World) (g : Governor) (req : Req) (now : Instant)
  : World * Governor * ResponseFuture :=
  let quota_path :=
    let (w1, r) := limiter_check w (limiter g) in
    match r with
    | Ok _ => forward w1 g req
    | Err negative =>
        let wait_time := as_secs (wait_time_from negative now) in
        let headers :=
          header_insert "retry-after" (header_value_of_u64 wait_time)
            (header_insert "x-ratelimit-after" (header_value_of_u64 wait_time)
               header_new) in
        let error_response :=
          g_error_handler g (TooManyRequests wait_time (Some headers)) in
        (w1, g, mkResponseFuture (KError (Some error_response)))
    end in
  match g_methods g with
  | Some configured_methods =>
      if negb (contains configured_methods (req_method req))
      then forward w g req
      else quota_path
  | None => quota_path
  end.

(** *** Successive requests

    A caller issuing [Service::call] on one governor for each request of a
    list, in order, with the clock reading [now]. *)
Fixpoint call_all (w : World) (g : Governor) (reqs : list Req) (now : Instant)
  : World * Governor * list ResponseFuture :=
  match reqs with
  | [] => (w, g, [])
  | r :: rs =>
      let '(w1, g1, f) := call w g r now in
      let '(w2, g2, fs) := call_all w1 g1 rs now in
      (w2, g2, f :: fs)
  end.

Definition is_passthrough (rf : ResponseFuture) : bool :=
  match rf_inner rf with
  | Passthrough _ => true
  | KError _ => false
  end.

Definition is_ok {T U} (r : result T U) : bool :=
  match r with
  | Ok _ => true
  | Err _ => false
  end.

(** The successes of [n] successive [check]s on a limiter state. *)
Fixpoint check_oks (l : Lim) (n : nat) : list bool :=
  match n with
  | O => []
  | Datatypes.S n' => let (l', r) := check l in is_ok r :: check_oks l' n'
  end.

(** ** Properties *)

(** *** Helper facts *)

Lemma as_secs_floor (d : Duration) :
  duration_wf d -> as_secs d = as_nanos d / NANOS_PER_SEC.
Proof.
  unfold duration_wf, as_secs, as_nanos, NANOS_PER_SEC; intros [_ Hn].
  apply (Z.div_unique _ _ _ (nanos d)); lia.
Qed.

Lemma duration_eqb_refl (d : Duration) : duration_eqb d d = true.
Proof. unfold duration_eqb; now rewrite !Z.eqb_refl. Qed.

Lemma methods_list_eqb_refl (ms : list Method) : methods_list_eqb ms ms = true.
Proof. induction ms as [|m ms IH]; simpl; [reflexivity|now rewrite String.eqb_refl, IH]. Qed.

Lemma methods_eqb_refl (o : option (list Method)) : methods_eqb o o = true.
Proof. destruct o; simpl; [apply methods_list_eqb_refl|reflexivity]. Qed.

(** The world after [call] does not depend on the inner service's state:
    only the limiter id, the method filter and the error handler matter. *)
Lemma call_world_indep_inner (w : World) (g1 g2 : Governor) (req : Req) (now : Instant) :
  limiter g1 = limiter g2 -> g_methods g1 = g_methods g2 ->
  fst (fst (call w g1 req now)) = fst (fst (call w g2 req now)).
Proof.
  intros Hl Hm; unfold call, forward, limiter_check.
  rewrite Hm, Hl.
  destruct (inner_call (inner g1) req), (inner_call (inner g2) req).
  destruct (g_methods g2) as [ms|];
    [destruct (negb (contains ms (req_method req)))|];
    try reflexivity;
    destruct (check (w_cells w (limiter g2))) as [l' [u|n]]; reflexivity.
Qed.

(** *** Claims *)

(** C1: a request the method filter lets through and the limiter denies
    (with [NotUntil] [negative]) never reaches the inner service: the world
    only records the limiter check, the governor is returned unchanged, and
    the future holds the error handler's response to
    [TooManyRequests { wait_time, headers }], where both
    [x-ratelimit-after] and [retry-after] carry the decimal text of the wait
    time in whole seconds (the floor of the wait). *)
Theorem call_denied_renders_rejection (w : World) (g : Governor) (req : Req)
  (now : Instant) (l' : Lim) (negative : NotUntil) :
  (forall ms, g_methods g = Some ms -> contains ms (req_method req) = true) ->
  check (w_cells w (limiter g)) = (l', Err negative) ->
  let wait := wait_time_from negative now in
  exists w' headers,
    call w g req now =
      (w', g, mkResponseFuture
                (KError (Some (g_error_handler g
                   (TooManyRequests (as_secs wait) (Some headers))))))
    /\ w_trace w' = w_trace w ++ [EvCheck (limiter g)]
    /\ w_cells w' (limiter g) = l'
    /\ header_get "x-ratelimit-after" headers = Some (header_value_of_u64 (as_secs wait))
    /\ header_get "retry-after" headers = Some (header_value_of_u64 (as_secs wait))
    /\ (duration_wf wait -> as_secs wait = as_nanos wait / NANOS_PER_SEC).
Proof.
  intros Hm Hc wait.
  assert (Hq : call w g req now =
    (fst (limiter_check w (limiter g)), g,
     mkResponseFuture (KError (Some (g_error_handler g
       (TooManyRequests (as_secs wait)
          (Some (header_insert "retry-after" (header_value_of_u64 (as_secs wait))
                   (header_insert "x-ratelimit-after"
                      (header_value_of_u64 (as_secs wait)) header_new))))))))).
  { unfold call, limiter_check. rewrite Hc.
    destruct (g_methods g) as [ms|] eqn:E1; [rewrite (Hm ms eq_refl)|]; reflexivity. }
  rewrite Hq. do 2 eexists. split; [reflexivity|].
  unfold limiter_check; rewrite Hc; simpl.
  split; [reflexivity|]. split; [now rewrite Nat.eqb_refl|].
  split; [reflexivity|]. split; [reflexivity|].
  apply as_secs_floor.
Qed.


Lemma duration_checked_mul_some (d p : Duration) (b : Z) :
  duration_wf d -> 0 <= b -> duration_checked_mul d b = Some p ->
  as_nanos p = as_nanos d * b.
Proof.
  intros [Hs Hn] Hb. unfold duration_checked_mul.
  pose proof (Z.div_mod (nanos d * b) NANOS_PER_SEC ltac:(unfold NANOS_PER_SEC; lia)) as Hdm.
  destruct (secs d * b <=? U64_MAX); [|discriminate].
  destruct (secs d * b + nanos d * b / NANOS_PER_SEC <=? U64_MAX); [|discriminate].
  intros H. injection H as <-. unfold as_nanos in *; simpl.
  unfold NANOS_PER_SEC in *. nia.
Qed.

Lemma duration_checked_mul_none (d : Duration) (b : Z) :
  duration_wf d -> 0 <= b -> duration_checked_mul d b = None ->
  U64_MAX < as_nanos d * b.
Proof.
  intros [Hs Hn] Hb. unfold duration_checked_mul.
  pose proof (Z.div_mod (nanos d * b) NANOS_PER_SEC ltac:(unfold NANOS_PER_SEC; lia)) as Hdm.
  pose proof (Z.mod_pos_bound (nanos d * b) NANOS_PER_SEC ltac:(unfold NANOS_PER_SEC; lia)) as Hmb.
  assert (HN : 0 <= nanos d * b) by nia.
  destruct (secs d * b <=? U64_MAX) eqn:E1; rewrite ?Z.leb_le, ?Z.leb_gt in E1.
  - destruct (secs d * b + nanos d * b / NANOS_PER_SEC <=? U64_MAX) eqn:E2;
      rewrite ?Z.leb_le, ?Z.leb_gt in E2; [discriminate|].
    intros _. unfold as_nanos, U64_MAX, NANOS_PER_SEC in *. nia.
  - intros _. unfold as_nanos, U64_MAX, NANOS_PER_SEC in *. nia.
Qed.

(** [Gcra::new] on a well-formed period and a non-zero u32 burst succeeds
    exactly when [period * burst] fits in u64 nanoseconds, and otherwise
    panics in the multiplication or in the conversion to nanoseconds. *)
Lemma gcra_new_cases (d : Duration) (b : Z) :
  duration_wf d -> 1 <= b < 2 ^ 32 ->
  (as_nanos d * b <= U64_MAX -> exists gc, gcra_new (mkQuota b d) = Ret gc)
  /\ (U64_MAX < as_nanos d * b ->
      gcra_new (mkQuota b d) = Panic MUL_OVERFLOW_MSG
      \/ gcra_new (mkQuota b d) = Panic NANOS_OVERFLOW_MSG).
Proof.
  intros Hwf Hb.
  assert (Hle : as_nanos d <= as_nanos d * b).
  { destruct Hwf as [Hs Hn].
    assert (0 <= as_nanos d) by (unfold as_nanos, NANOS_PER_SEC; lia). nia. }
  unfold gcra_new, duration_mul; simpl.
  destruct (duration_checked_mul d b) as [p|] eqn:Em; simpl.
  - pose proof (duration_checked_mul_some d p b Hwf ltac:(lia) Em) as Hp.
    unfold nanos_of_duration. rewrite Hp.
    destruct (as_nanos d * b <=? U64_MAX) eqn:E1; rewrite ?Z.leb_le, ?Z.leb_gt in E1; simpl.
    + destruct (as_nanos d <=? U64_MAX) eqn:E2; rewrite ?Z.leb_le, ?Z.leb_gt in E2; simpl.
      * split; [intros _; eexists; reflexivity|intros; lia].
      * lia.
    + split; [intros; lia|intros _; right; reflexivity].
  - pose proof (duration_checked_mul_none d b Hwf ltac:(lia) Em).
    split; [intros; lia|intros _; left; reflexivity].
Qed.

Lemma finish_zero (w : World) (b : GovernorConfigBuilder) :
  burst_size b = 0 \/ as_nanos (period b) = 0 -> finish w b = Ret (w, None).
Proof.
  intros [H|H]; unfold finish; rewrite H; simpl;
    [reflexivity|now rewrite andb_false_r].
Qed.

Lemma finish_nonzero (w : World) (b : GovernorConfigBuilder) :
  burst_size b <> 0 -> as_nanos (period b) <> 0 ->
  finish w b =
    (lim <- rate_limiter_direct (mkQuota (burst_size b) (period b)) ;;
     let (id, w') := arc_new w lim in
     Ret (w', Some (mkConfig id (methods b) (error_handler b)))).
Proof.
  intros Hb Hp. unfold finish, with_period, NonZeroU32_new.
  rewrite (proj2 (Z.eqb_neq _ _) Hb), (proj2 (Z.eqb_neq _ _) Hp). reflexivity.
Qed.

Lemma finish_ok_inv (w w' : World) (b : GovernorConfigBuilder) (c : GovernorConfig) :
  finish w b = Ret (w', Some c) ->
  burst_size b <> 0 /\ as_nanos (period b) <> 0
  /\ cfg_limiter c = w_next w /\ w_next w' = Datatypes.S (w_next w)
  /\ (forall i, i <> w_next w -> w_cells w' i = w_cells w i)
  /\ w_cells w' (w_next w) = direct (mkQuota (burst_size b) (period b))
  /\ cfg_methods c = methods b /\ cfg_error_handler c = error_handler b
  /\ w_trace w' = w_trace w.
Proof.
  destruct (Z.eq_dec (burst_size b) 0) as [Hb|Hb];
    [rewrite finish_zero by auto; discriminate|].
  destruct (Z.eq_dec (as_nanos (period b)) 0) as [Hp|Hp];
    [rewrite finish_zero by auto; discriminate|].
  rewrite finish_nonzero by assumption. unfold rate_limiter_direct.
  destruct (gcra_new (mkQuota (burst_size b) (period b))); simpl; [|discriminate].
  intros H. injection H as <- <-.
  repeat split; simpl; auto.
  - intros i Hi. now rewrite (proj2 (Nat.eqb_neq i (w_next w)) Hi).
  - now rewrite Nat.eqb_refl.
Qed.

(** C2 (amended): for a well-formed period and a u32 burst size, [finish]
    returns [None] (world unchanged) exactly when the burst size or the
    period is zero, returns [Some config] exactly when both are non-zero
    and [period * burst] fits in u64 nanoseconds, and panics otherwise;
    a panic only ever comes from [governor]'s [Gcra::new] (duration
    multiplication or nanosecond conversion), never from the [unwrap]s on
    [Quota::with_period] and [NonZeroU32::new]. *)
Theorem finish_result_cases (w : World) (b : GovernorConfigBuilder) :
  duration_wf (period b) -> 0 <= burst_size b < 2 ^ 32 ->
  ((burst_size b = 0 \/ as_nanos (period b) = 0) -> finish w b = Ret (w, None))
  /\ ((exists w' c, finish w b = Ret (w', Some c)) <->
      (burst_size b <> 0 /\ as_nanos (period b) <> 0
       /\ as_nanos (period b) * burst_size b <= U64_MAX))
  /\ (U64_MAX < as_nanos (period b) * burst_size b -> exists msg, finish w b = Panic msg)
  /\ (forall msg, finish w b = Panic msg ->
        burst_size b <> 0 /\ as_nanos (period b) <> 0
        /\ U64_MAX < as_nanos (period b) * burst_size b
        /\ (msg = MUL_OVERFLOW_MSG \/ msg = NANOS_OVERFLOW_MSG)).
Proof.
  intros Hwf Hb32.
  destruct (Z.eq_dec (burst_size b) 0) as [Hb|Hb].
  { rewrite finish_zero by auto.
    split; [reflexivity|].
    split; [split; [intros (? & ? & H); discriminate|intros (H & _); contradiction]|].
    split; [intros H; rewrite Hb in H; unfold U64_MAX in H; lia|intros msg H; discriminate]. }
  destruct (Z.eq_dec (as_nanos (period b)) 0) as [Hp|Hp].
  { rewrite finish_zero by auto.
    split; [reflexivity|].
    split; [split; [intros (? & ? & H); discriminate|intros (_ & H & _); contradiction]|].
    split; [intros H; rewrite Hp in H; unfold U64_MAX in H; lia|intros msg H; discriminate]. }
  rewrite finish_nonzero by assumption. unfold rate_limiter_direct.
  destruct (gcra_new_cases (period b) (burst_size b) Hwf ltac:(lia)) as [Hok Hov].
  destruct (Z_le_gt_dec (as_nanos (period b) * burst_size b) U64_MAX) as [Hle|Hgt].
  - destruct (Hok Hle) as [gc Hg]. rewrite Hg. simpl.
    split; [intros [H|H]; contradiction|].
    split; [split; [intros _; auto|intros _; eexists _, _; reflexivity]|].
    split; [intros; lia|intros msg H; discriminate].
  - destruct (Hov ltac:(lia)) as [Hg|Hg]; rewrite Hg; simpl.
    all: split; [intros [H|H]; contradiction|].
    all: split; [split; [intros (? & ? & H); discriminate|intros; lia]|].
    all: split; [intros; eexists; reflexivity|].
    all: intros msg H; injection H as <-; repeat split; auto; lia.
Qed.

(** C3: when a method filter is configured and the request's method is not
    in it, [call] forwards the request to the inner service whatever the
    limiter holds, without calling [check]: the limiter cells are untouched
    and the only recorded event is the inner call.  Without a filter the
    limiter's [check] is the first thing [call] does. *)
Theorem call_unfiltered_method_skips_quota (w : World) (g : Governor) (req : Req)
  (now : Instant) :
  (forall ms, g_methods g = Some ms -> contains ms (req_method req) = false ->
     exists i future,
       inner_call (inner g) req = (i, future)
       /\ call w g req now =
            (mkWorld (w_next w) (w_cells w) (w_trace w ++ [EvInnerCall req]),
             set_inner g i, mkResponseFuture (Passthrough future)))
  /\ (g_methods g = None ->
      exists rest, w_trace (fst (fst (call w g req now)))
                   = w_trace w ++ EvCheck (limiter g) :: rest).
Proof.
  split.
  - intros ms Hm Hc. unfold call. rewrite Hm, Hc. simpl. unfold forward.
    destruct (inner_call (inner g) req) as [i future]. eauto.
  - intros Hm. unfold call. rewrite Hm. unfold limiter_check, forward.
    destruct (check (w_cells w (limiter g))) as [l' [u|n]].
    + destruct (inner_call (inner g) req). simpl.
      exists [EvInnerCall req]. now rewrite <- app_assoc.
    + exists []. reflexivity.
Qed.

(** C4: the future of a denied request resolves, on its first poll, to
    [Ready(Ok(response))] carrying the rendered rejection, never to the
    inner service's error value. *)
Theorem denied_future_resolves_ok (w : World) (g : Governor) (req : Req)
  (now : Instant) (l' : Lim) (negative : NotUntil) (cx : Ctx) :
  (forall ms, g_methods g = Some ms -> contains ms (req_method req) = true) ->
  check (w_cells w (limiter g)) = (l', Err negative) ->
  exists w' rf headers,
    call w g req now = (w', g, rf)
    /\ poll rf cx =
         Ret (mkResponseFuture (KError None),
              Ready (Ok (g_error_handler g
                (TooManyRequests (as_secs (wait_time_from negative now))
                                 (Some headers))))).
Proof.
  intros Hm Hc.
  destruct (call_denied_renders_rejection w g req now l' negative Hm Hc)
    as (w' & headers & Hcall & _).
  eexists w', _, headers. split; [exact Hcall|reflexivity].
Qed.

(** C5: a future in the [Error] state holding [Some response] yields
    [Ready(Ok(response))] on its first poll and is left holding [None]; a
    second poll reaches the [expect] and panics.  Every [Error] future built
    by [call] holds [Some]. *)
Theorem error_future_polled_once (r : Response) (cx cx' : Ctx) :
  poll (mkResponseFuture (KError (Some r))) cx
    = Ret (mkResponseFuture (KError None), Ready (Ok r))
  /\ poll (mkResponseFuture (KError None)) cx' = Panic EXPECT_MSG
  /\ (forall w g req now w' g' o,
        call w g req now = (w', g', mkResponseFuture (KError o)) ->
        exists r', o = Some r').
Proof.
  split; [reflexivity|]. split; [reflexivity|].
  intros w g req now w' g' o Hcall. unfold call, forward, limiter_check in Hcall.
  destruct (inner_call (inner g) req) as [i future].
  destruct (check (w_cells w (limiter g))) as [l' [u|n]];
    destruct (g_methods g) as [ms|];
    try destruct (negb (contains ms (req_method req)));
    injection Hcall; intros; subst; try discriminate; eauto.
Qed.

(** C6: an admitted request (its method outside the filter, or the
    limiter's [check] succeeding) is handed to the inner service's [call]
    as it is; the resulting [Passthrough] future polls exactly as the inner
    future, with the same [Poll] value (response or error). *)
Theorem admitted_request_forwarded_verbatim (w : World) (g : Governor)
  (req : Req) (now : Instant) :
  (exists ms, g_methods g = Some ms /\ contains ms (req_method req) = false)
  \/ snd (check (w_cells w (limiter g))) = Ok tt ->
  exists w' i future pre,
    inner_call (inner g) req = (i, future)
    /\ call w g req now = (w', set_inner g i, mkResponseFuture (Passthrough future))
    /\ w_trace w' = pre ++ [EvInnerCall req]
    /\ (forall cx,
          poll (mkResponseFuture (Passthrough future)) cx
            = Ret (mkResponseFuture (Passthrough (fst (fut_poll future cx))),
                   snd (fut_poll future cx))).
Proof.
  intros Hadm.
  assert (Hpoll : forall future cx,
    poll (mkResponseFuture (Passthrough future)) cx
      = Ret (mkResponseFuture (Passthrough (fst (fut_poll future cx))),
             snd (fut_poll future cx))).
  { intros future cx. unfold poll; simpl. now destruct (fut_poll future cx). }
  unfold call, forward, limiter_check.
  destruct (inner_call (inner g) req) as [i future] eqn:Hi.
  destruct Hadm as [(ms & Hm & Hc)|Hok].
  - rewrite Hm, Hc. simpl.
    eexists _, i, future, _.
    split; [reflexivity|]. split; [reflexivity|]. split; [reflexivity|].
    exact (Hpoll future).
  - destruct (check (w_cells w (limiter g))) as [l' r] eqn:Hc.
    simpl in Hok; subst r.
    destruct (g_methods g) as [ms|];
      [destruct (negb (contains ms (req_method req)))|];
      eexists _, i, future, _;
      (split; [reflexivity|]); (split; [reflexivity|]); (split; [reflexivity|]);
      exact (Hpoll future).
Qed.

(** C7: a clone of the middleware keeps the same limiter id (the [Arc] is
    cloned, not the limiter), the same filter and error handler, and a clone
    of the inner service; so a call through the clone has the same effect on
    the shared limiter (indeed on the whole world) as a call through the
    original.  Likewise every [Governor::new] from one config shares its
    limiter. *)
Theorem clone_shares_limiter (g : Governor) :
  limiter (governor_clone g) = limiter g
  /\ g_methods (governor_clone g) = g_methods g
  /\ inner (governor_clone g) = clone_inner (inner g)
  /\ g_error_handler (governor_clone g) = g_error_handler g
  /\ (forall w req now,
        fst (fst (call w (governor_clone g) req now)) = fst (fst (call w g req now)))
  /\ (forall config i1 i2,
        limiter (governor_new i1 config) = cfg_limiter config
        /\ limiter (governor_new i2 config) = cfg_limiter config
        /\ forall w req now,
             fst (fst (call w (governor_new i1 config) req now))
             = fst (fst (call w (governor_new i2 config) req now))).
Proof.
  split; [reflexivity|]. split; [reflexivity|]. split; [reflexivity|].
  split; [reflexivity|]. split.
  - intros w req now. now apply call_world_indep_inner.
  - intros config i1 i2. split; [reflexivity|]. split; [reflexivity|].
    intros w req now. now apply call_world_indep_inner.
Qed.

(** C8: [poll_ready] returns exactly the inner service's [poll_ready]
    result; it only stores the inner service's new state and touches
    neither the limiter nor the world. *)
Theorem poll_ready_is_inner (g : Governor) (cx : Ctx) :
  snd (poll_ready g cx) = snd (inner_poll_ready (inner g) cx)
  /\ fst (poll_ready g cx) = set_inner g (fst (inner_poll_ready (inner g) cx)).
Proof.
  unfold poll_ready. destruct (inner_poll_ready (inner g) cx); split; reflexivity.
Qed.

(** C9: the default builder has period 500 ms, burst 8 and no filter; the
    secure builder has period 4 s, burst 2 and no filter; both go through
    [finish], which succeeds and allocates a limiter for exactly that
    quota. *)
Theorem presets_parameters (w : World) :
  const_default = mkBuilder (mkDuration 0 500000000) 8 None default_error_handler
  /\ secure_builder = mkBuilder (mkDuration 4 0) 2 None default_error_handler
  /\ (exists w',
        config_default w = Ret (w', mkConfig (w_next w) None default_error_handler)
        /\ w_cells w' (w_next w) = direct (mkQuota 8 (mkDuration 0 500000000)))
  /\ (exists w',
        secure w = Ret (w', mkConfig (w_next w) None default_error_handler)
        /\ w_cells w' (w_next w) = direct (mkQuota 2 (mkDuration 4 0))).
Proof.
  split; [reflexivity|]. split; [reflexivity|].
  split; eexists; (split; [reflexivity|]); simpl; now rewrite Nat.eqb_refl.
Qed.

(** C10: error-handler equality is always [true], so builder equality is
    decided by period, burst size and methods alone; two builders that
    differ only in their error handler compare equal. *)
Theorem builder_eq_ignores_error_handler :
  (forall e1 e2 : ErrorHandler, error_handler_eq e1 e2 = true)
  /\ (forall b1 b2,
        builder_eqb b1 b2 =
          duration_eqb (period b1) (period b2) && (burst_size b1 =? burst_size b2)
          && methods_eqb (methods b1) (methods b2))
  /\ (forall b f, builder_eqb b (set_error_handler b f) = true).
Proof.
  split; [reflexivity|]. split.
  - intros b1 b2. unfold builder_eqb, error_handler_eq. now rewrite andb_true_r.
  - intros b f. unfold builder_eqb, set_error_handler, error_handler_eq; simpl.
    now rewrite duration_eqb_refl, Z.eqb_refl, methods_eqb_refl.
Qed.

(** *** Further properties of the code *)


(** A successful [finish] allocates one fresh limiter, holding the quota
    [burst_size] per [period], and leaves every existing limiter as it
    was; the config takes the builder's methods and error handler. *)
Theorem finish_allocates_fresh_limiter (w w' : World) (b : GovernorConfigBuilder)
  (c : GovernorConfig) :
  finish w b = Ret (w', Some c) ->
  cfg_limiter c = w_next w /\ w_next w' = Datatypes.S (w_next w)
  /\ (forall i, i <> w_next w -> w_cells w' i = w_cells w i)
  /\ w_cells w' (cfg_limiter c) = direct (mkQuota (burst_size b) (period b))
  /\ cfg_methods c = methods b /\ cfg_error_handler c = error_handler b.
Proof.
  intros H. destruct (finish_ok_inv w w' b c H)
    as (_ & _ & Hl & Hn & Hcells & Hq & Hm & He & _).
  rewrite Hl. repeat split; auto.
Qed.

(** Two successful [finish] calls, even on the same builder, give configs
    with distinct limiters (separate budgets); the second call leaves the
    first config's limiter untouched. *)
Theorem finish_twice_separate_budgets (w w1 w2 : World)
  (b1 b2 : GovernorConfigBuilder) (c1 c2 : GovernorConfig) :
  finish w b1 = Ret (w1, Some c1) -> finish w1 b2 = Ret (w2, Some c2) ->
  cfg_limiter c1 <> cfg_limiter c2
  /\ w_cells w2 (cfg_limiter c1) = w_cells w1 (cfg_limiter c1).
Proof.
  intros H1 H2.
  destruct (finish_ok_inv w w1 b1 c1 H1) as (_ & _ & Hl1 & Hn1 & _).
  destruct (finish_ok_inv w1 w2 b2 c2 H2) as (_ & _ & Hl2 & _ & Hc2 & _).
  rewrite Hl1, Hl2, Hn1. split; [lia|]. apply Hc2. lia.
Qed.

Lemma finish_set_period (w : World) (b : GovernorConfigBuilder) (d : Duration) :
  burst_size b <> 0 -> 0 <= burst_size b < 2 ^ 32 -> duration_wf d ->
  (as_nanos d = 0 -> finish w (set_period b d) = Ret (w, None))
  /\ (as_nanos d <> 0 -> as_nanos d * burst_size b <= U64_MAX ->
      exists w' c, finish w (set_period b d) = Ret (w', Some c)
        /\ w_cells w' (cfg_limiter c) = direct (mkQuota (burst_size b) d))
  /\ (U64_MAX < as_nanos d * burst_size b ->
      exists msg, finish w (set_period b d) = Panic msg).
Proof.
  intros Hb Hb32 Hwf.
  split; [intros Hp; apply finish_zero; right; exact Hp|].
  destruct (gcra_new_cases d (burst_size b) Hwf ltac:(lia)) as [Hok Hov].
  split.
  - intros Hp Hle. rewrite finish_nonzero by assumption.
    unfold set_period; cbn [period burst_size methods error_handler].
    unfold rate_limiter_direct. destruct (Hok Hle) as [gc Hg]. rewrite Hg.
    eexists _, _. split; [reflexivity|]. cbn. now rewrite Nat.eqb_refl.
  - intros Hgt.
    assert (Hp : as_nanos d <> 0)
      by (intros H0; rewrite H0 in Hgt; unfold U64_MAX in Hgt; lia).
    rewrite finish_nonzero by assumption.
    unfold set_period; cbn [period burst_size methods error_handler].
    unfold rate_limiter_direct.
    destruct (Hov Hgt) as [Hg|Hg]; rewrite Hg; eexists; reflexivity.
Qed.

(** X3: [per_second(n)] sets a period of [n * 10^9] ns; with a non-zero
    u32 burst size, [finish] then returns [None] for [n = 0], allocates a
    limiter with quota [burst] per [n] seconds when [n <> 0] and
    [n * 10^9 * burst] fits in u64, and panics when it does not. *)
Theorem per_second_finish (w : World) (b : GovernorConfigBuilder) (n : Z) :
  burst_size b <> 0 -> 0 <= burst_size b < 2 ^ 32 -> 0 <= n < 2 ^ 64 ->
  as_nanos (period (per_second b n)) = n * 1000000000
  /\ (n = 0 -> finish w (per_second b n) = Ret (w, None))
  /\ (n <> 0 -> n * 1000000000 * burst_size b <= U64_MAX ->
      exists w' c, finish w (per_second b n) = Ret (w', Some c)
        /\ w_cells w' (cfg_limiter c) = direct (mkQuota (burst_size b) (from_secs n)))
  /\ (U64_MAX < n * 1000000000 * burst_size b ->
      exists msg, finish w (per_second b n) = Panic msg).
Proof.
  intros Hb Hb32 Hn.
  assert (Ha : as_nanos (from_secs n) = n * 1000000000)
    by (unfold as_nanos, from_secs, NANOS_PER_SEC; simpl; ring).
  assert (Hwf : duration_wf (from_secs n))
    by (unfold duration_wf, from_secs, NANOS_PER_SEC; simpl; lia).
  destruct (finish_set_period w b (from_secs n) Hb Hb32 Hwf) as (Hz & Hok & Hov).
  rewrite Ha in Hz, Hok, Hov. unfold per_second.
  change (period (set_period b (from_secs n))) with (from_secs n).
  split; [exact Ha|].
  split; [intros ->; apply Hz; reflexivity|].
  split; [intros H1 H2; apply Hok; lia|exact Hov].
Qed.

(** X4: [per_millisecond(n)] sets a period of exactly [n * 10^6] ns (no
    rounding); with a non-zero u32 burst size, [finish] returns [None] for
    [n = 0], allocates a limiter for that period when [n <> 0] and the
    burst fits in u64 nanoseconds, and panics when it does not. *)
Theorem per_millisecond_finish (w : World) (b : GovernorConfigBuilder) (n : Z) :
  burst_size b <> 0 -> 0 <= burst_size b < 2 ^ 32 -> 0 <= n < 2 ^ 64 ->
  as_nanos (period (per_millisecond b n)) = n * 1000000
  /\ (n = 0 -> finish w (per_millisecond b n) = Ret (w, None))
  /\ (n <> 0 -> n * 1000000 * burst_size b <= U64_MAX ->
      exists w' c, finish w (per_millisecond b n) = Ret (w', Some c)
        /\ w_cells w' (cfg_limiter c) = direct (mkQuota (burst_size b) (from_millis n)))
  /\ (U64_MAX < n * 1000000 * burst_size b ->
      exists msg, finish w (per_millisecond b n) = Panic msg).
Proof.
  intros Hb Hb32 Hn.
  pose proof (Z.div_mod n 1000 ltac:(lia)) as Hdm.
  pose proof (Z.mod_pos_bound n 1000 ltac:(lia)) as Hmb.
  pose proof (Z.div_pos n 1000 ltac:(lia) ltac:(lia)) as Hdp.
  pose proof (Z.div_le_upper_bound n 1000 n ltac:(lia) ltac:(lia)) as Hdu.
  assert (Ha : as_nanos (from_millis n) = n * 1000000)
    by (unfold as_nanos, from_millis, NANOS_PER_SEC; simpl; lia).
  assert (Hwf : duration_wf (from_millis n))
    by (unfold duration_wf, from_millis, NANOS_PER_SEC; simpl; lia).
  destruct (finish_set_period w b (from_millis n) Hb Hb32 Hwf) as (Hz & Hok & Hov).
  rewrite Ha in Hz, Hok, Hov. unfold per_millisecond.
  change (period (set_period b (from_millis n))) with (from_millis n).
  split; [exact Ha|].
  split; [intros ->; apply Hz; reflexivity|].
  split; [intros H1 H2; apply Hok; lia|exact Hov].
Qed.

(** X5: [per_nanosecond(n)] sets a period of exactly [n] ns; with a
    non-zero u32 burst size, [finish] returns [None] for [n = 0], allocates
    a limiter for that period when [n <> 0] and [n * burst] fits in u64,
    and panics when it does not. *)
Theorem per_nanosecond_finish (w : World) (b : GovernorConfigBuilder) (n : Z) :
  burst_size b <> 0 -> 0 <= burst_size b < 2 ^ 32 -> 0 <= n < 2 ^ 64 ->
  as_nanos (period (per_nanosecond b n)) = n
  /\ (n = 0 -> finish w (per_nanosecond b n) = Ret (w, None))
  /\ (n <> 0 -> n * burst_size b <= U64_MAX ->
      exists w' c, finish w (per_nanosecond b n) = Ret (w', Some c)
        /\ w_cells w' (cfg_limiter c) = direct (mkQuota (burst_size b) (from_nanos n)))
  /\ (U64_MAX < n * burst_size b ->
      exists msg, finish w (per_nanosecond b n) = Panic msg).
Proof.
  intros Hb Hb32 Hn.
  pose proof (Z.div_mod n NANOS_PER_SEC ltac:(unfold NANOS_PER_SEC; lia)) as Hdm.
  pose proof (Z.mod_pos_bound n NANOS_PER_SEC ltac:(unfold NANOS_PER_SEC; lia)) as Hmb.
  pose proof (Z.div_pos n NANOS_PER_SEC ltac:(lia) ltac:(unfold NANOS_PER_SEC; lia)) as Hdp.
  pose proof (Z.div_le_upper_bound n NANOS_PER_SEC n
                ltac:(unfold NANOS_PER_SEC; lia) ltac:(unfold NANOS_PER_SEC; lia)) as Hdu.
  assert (Ha : as_nanos (from_nanos n) = n)
    by (unfold as_nanos, from_nanos in *; simpl; lia).
  assert (Hwf : duration_wf (from_nanos n))
    by (unfold duration_wf, from_nanos in *; simpl; lia).
  destruct (finish_set_period w b (from_nanos n) Hb Hb32 Hwf) as (Hz & Hok & Hov).
  rewrite Ha in Hz, Hok, Hov. unfold per_nanosecond.
  change (period (set_period b (from_nanos n))) with (from_nanos n).
  split; [exact Ha|].
  split; [intros ->; apply Hz; reflexivity|].
  split; [intros H1 H2; apply Hok; lia|exact Hov].
Qed.

(** X9: polling a future in the [Error] state panics exactly when its
    response has already been taken, and then with the [expect] message;
    otherwise it is ready with [Ok] of the stored response and the state
    becomes taken. *)
Theorem poll_error_panics_iff_taken (o : option Response) (cx : Ctx) :
  (forall msg, poll (mkResponseFuture (KError o)) cx = Panic msg
               <-> (o = None /\ msg = EXPECT_MSG))
  /\ (forall r, o = Some r ->
      poll (mkResponseFuture (KError o)) cx
        = Ret (mkResponseFuture (KError None), Ready (Ok r))).
Proof.
  split.
  - intros msg. destruct o as [r|]; simpl; split.
    + discriminate.
    + intros [H _]; discriminate.
    + intros H. injection H as <-. auto.
    + intros [_ ->]. reflexivity.
  - intros r ->. reflexivity.
Qed.

Lemma header_lookup_remove (k k' : string) (m : HeaderMap) :
  k' <> k -> header_lookup k' (header_remove k m) = header_lookup k' m.
Proof.
  intros Hne. induction m as [|[k0 v0] t IH]; simpl; [reflexivity|].
  destruct (String.eqb_spec k0 k) as [->|Hk]; simpl.
  - destruct (String.eqb_spec k k') as [->|_]; [contradiction|exact IH].
  - destruct (String.eqb k0 k'); [reflexivity|exact IH].
Qed.

Lemma header_lookup_remove_same (k : string) (m : HeaderMap) :
  header_lookup k (header_remove k m) = None.
Proof.
  induction m as [|[k0 v0] t IH]; simpl; [reflexivity|].
  destruct (String.eqb_spec k0 k) as [->|Hk]; simpl; [exact IH|].
  destruct (String.eqb_spec k0 k) as [->|_]; [contradiction|exact IH].
Qed.

Lemma header_insert_lookup (k v : string) (m : HeaderMap) :
  header_lookup k (header_insert k v m) = Some v
  /\ (forall k', k' <> k -> header_lookup k' (header_insert k v m) = header_lookup k' m).
Proof.
  induction m as [|[k0 v0] t [IH1 IH2]]; simpl.
  - rewrite String.eqb_refl. split; [reflexivity|].
    intros k' Hne. destruct (String.eqb_spec k k') as [->|_]; [contradiction|reflexivity].
  - destruct (String.eqb_spec k0 k) as [->|Hk]; simpl.
    + rewrite String.eqb_refl. split; [reflexivity|].
      intros k' Hne. destruct (String.eqb_spec k k') as [->|_]; [contradiction|].
      now apply header_lookup_remove.
    + destruct (String.eqb_spec k0 k) as [->|_]; [contradiction|].
      split; [exact IH1|].
      intros k' Hne. destruct (String.eqb k0 k'); [reflexivity|now apply IH2].
Qed.

(** X13: after [HeaderMap::insert(k, v)] with a lower-case name [k], every
    [&str] key that parses to [k] (any letter case) reads [v], and every
    other key reads what it read before. *)
Theorem header_insert_get (k v : string) (m : HeaderMap) :
  (forall k', header_name_of_str k' = Some k -> header_get k' (header_insert k v m) = Some v)
  /\ (forall k', header_name_of_str k' <> Some k ->
      header_get k' (header_insert k v m) = header_get k' m).
Proof.
  destruct (header_insert_lookup k v m) as [H1 H2]. unfold header_get. split.
  - intros k' ->. exact H1.
  - intros k' Hne. destruct (header_name_of_str k') as [n|]; [|reflexivity].
    apply H2. intros ->. apply Hne. reflexivity.
Qed.


Ltac call_cases w g req :=
  unfold call, forward, limiter_check;
  destruct (inner_call (inner g) req);
  destruct (check (w_cells w (limiter g))) as [? [?|?]];
  destruct (g_methods g) as [?ms|] eqn:?Hm;
  [destruct (negb (contains ms (req_method req)))| |
   destruct (negb (contains ms (req_method req)))|];
  simpl.

(** Neither [call] nor [poll_ready] changes the governor's limiter, method
    filter or error handler; only the inner service's state moves. *)
Theorem call_keeps_configuration (w : World) (g : Governor) (req : Req)
  (now : Instant) (cx : Ctx) :
  let g' := snd (fst (call w g req now)) in
  let g'' := fst (poll_ready g cx) in
  limiter g' = limiter g /\ g_methods g' = g_methods g
  /\ g_error_handler g' = g_error_handler g
  /\ limiter g'' = limiter g /\ g_methods g'' = g_methods g
  /\ g_error_handler g'' = g_error_handler g.
Proof.
  unfold poll_ready. destruct (inner_poll_ready (inner g) cx).
  call_cases w g req; repeat split; auto.
Qed.

(** [call] allocates nothing and changes no limiter but the governor's
    own. *)
Theorem call_touches_only_own_limiter (w : World) (g : Governor) (req : Req)
  (now : Instant) :
  let w' := fst (fst (call w g req now)) in
  w_next w' = w_next w
  /\ (forall i, i <> limiter g -> w_cells w' i = w_cells w i).
Proof.
  call_cases w g req; split; try reflexivity; intros i Hi;
    try reflexivity; now rewrite (proj2 (Nat.eqb_neq i (limiter g)) Hi).
Qed.

(** Each [call] makes at most one limiter check and at most one inner
    call, the check first, and at least one of the two; the future passes
    through exactly when the inner service was called. *)
Theorem call_trace_shape (w : World) (g : Governor) (req : Req) (now : Instant) :
  exists t,
    w_trace (fst (fst (call w g req now))) = w_trace w ++ t
    /\ (t = [EvInnerCall req] \/ t = [EvCheck (limiter g); EvInnerCall req]
        \/ t = [EvCheck (limiter g)])
    /\ (In (EvInnerCall req) t <-> is_passthrough (snd (call w g req now)) = true).
Proof.
  call_cases w g req.
  all: first
    [ exists [EvInnerCall req]; split; [reflexivity|];
      split; [left; reflexivity|]; simpl; tauto
    | exists [EvCheck (limiter g); EvInnerCall req];
      split; [now rewrite <- app_assoc|];
      split; [right; left; reflexivity|]; simpl; tauto
    | exists [EvCheck (limiter g)]; split; [reflexivity|];
      split; [right; right; reflexivity|]; simpl;
      split; [intros [H|[]]; discriminate|discriminate] ].
Qed.


(** An empty method filter ([methods(vec![])]) turns rate limiting off:
    every request of any sequence is forwarded and no limiter is checked
    or changed. *)
Theorem empty_filter_never_limits (w : World) (g : Governor) (reqs : list Req)
  (now : Instant) :
  g_methods g = Some [] ->
  w_cells (fst (fst (call_all w g reqs now))) = w_cells w
  /\ w_trace (fst (fst (call_all w g reqs now)))
     = w_trace w ++ map EvInnerCall reqs
  /\ forallb is_passthrough (snd (call_all w g reqs now)) = true.
Proof.
  revert w g. induction reqs as [|r rs IH]; intros w g Hm; simpl.
  - rewrite app_nil_r. auto.
  - destruct (inner_call (inner g) r) as [i future] eqn:Hi.
    assert (Hc : call w g r now =
      (mkWorld (w_next w) (w_cells w) (w_trace w ++ [EvInnerCall r]),
       set_inner g i, mkResponseFuture (Passthrough future))).
    { unfold call, forward. rewrite Hm, Hi. reflexivity. }
    rewrite Hc.
    destruct (IH (mkWorld (w_next w) (w_cells w) (w_trace w ++ [EvInnerCall r]))
                 (set_inner g i) Hm) as (H1 & H2 & H3).
    destruct (call_all (mkWorld (w_next w) (w_cells w) (w_trace w ++ [EvInnerCall r]))
                (set_inner g i) rs now) as [[w2 g2] fs].
    simpl in *. rewrite H2, <- app_assoc. auto.
Qed.

Lemma call_no_filter_step (w : World) (g : Governor) (r : Req) (now : Instant) :
  g_methods g = None ->
  let '(w1, g1, f) := call w g r now in
  w_cells w1 (limiter g) = fst (check (w_cells w (limiter g)))
  /\ limiter g1 = limiter g /\ g_methods g1 = None
  /\ is_passthrough f = is_ok (snd (check (w_cells w (limiter g)))).
Proof.
  intros Hm. unfold call, forward, limiter_check. rewrite Hm.
  destruct (check (w_cells w (limiter g))) as [l' [u|n]]; simpl;
    [destruct (inner_call (inner g) r)|]; simpl;
    rewrite ?Nat.eqb_refl; auto.
Qed.

(** Without a method filter, over any sequence of requests the middleware
    admits the [k]-th request exactly when the limiter's [k]-th [check]
    succeeds: it adds no admission logic of its own. *)
Theorem call_all_follows_checks (w : World) (g : Governor) (reqs : list Req)
  (now : Instant) :
  g_methods g = None ->
  map is_passthrough (snd (call_all w g reqs now))
  = check_oks (w_cells w (limiter g)) (length reqs).
Proof.
  revert w g. induction reqs as [|r rs IH]; intros w g Hm; simpl; [reflexivity|].
  pose proof (call_no_filter_step w g r now Hm) as Hs.
  destruct (call w g r now) as [[w1 g1] f].
  destruct Hs as (Hc & Hl & Hm1 & Hp).
  specialize (IH w1 g1 Hm1).
  destruct (call_all w1 g1 rs now) as [[w2 g2] fs]. simpl in *.
  destruct (check (w_cells w (limiter g))) as [l' res]. simpl in *.
  rewrite Hp, IH, Hl, Hc. reflexivity.
Qed.

(** Governors made by a [GovernorLayer] and by any clone of it share the
    config's limiter: a call through either has the same effect on the
    world. *)
Theorem layer_clone_shares_limiter (l : GovernorLayer) (s1 s2 : Svc) :
  limiter (layer l s1) = cfg_limiter (config l)
  /\ limiter (layer (layer_clone l) s2) = cfg_limiter (config l)
  /\ g_methods (layer (layer_clone l) s2) = g_methods (layer l s1)
  /\ (forall w req now,
        fst (fst (call w (layer l s1) req now))
        = fst (fst (call w (layer (layer_clone l) s2) req now))).
Proof.
  repeat split. intros w req now. now apply call_world_indep_inner.
Qed.


Lemma methods_list_eqb_eq (a b : list Method) : methods_list_eqb a b = true <-> a = b.
Proof.
  revert b. induction a as [|x a IH]; intros [|y b]; simpl;
    try (split; [discriminate|congruence]); [tauto|].
  rewrite andb_true_iff, IH. destruct (String.eqb_spec x y) as [->|Hxy].
  - split; [intros [_ ->]; reflexivity|intros H; injection H as ->; auto].
  - split; [intros [H _]; discriminate|intros H; injection H; congruence].
Qed.

Lemma methods_eqb_eq (a b : option (list Method)) : methods_eqb a b = true <-> a = b.
Proof.
  destruct a as [x|], b as [y|]; simpl;
    try (split; [discriminate|congruence]); [|tauto].
  rewrite methods_list_eqb_eq. split; congruence.
Qed.

Lemma duration_eqb_eq (a b : Duration) : duration_eqb a b = true <-> a = b.
Proof.
  destruct a as [s1 n1], b as [s2 n2]; unfold duration_eqb; simpl.
  rewrite andb_true_iff, !Z.eqb_eq. split; [intros [-> ->]; reflexivity|].
  intros H; injection H; auto.
Qed.

(** Builder equality holds exactly when period, burst size and methods are
    equal; hence it is reflexive, symmetric and transitive, as [Eq]
    requires. *)
Theorem builder_eqb_spec (b1 b2 b3 : GovernorConfigBuilder) :
  (builder_eqb b1 b2 = true <->
     period b1 = period b2 /\ burst_size b1 = burst_size b2 /\ methods b1 = methods b2)
  /\ builder_eqb b1 b1 = true
  /\ builder_eqb b1 b2 = builder_eqb b2 b1
  /\ (builder_eqb b1 b2 = true -> builder_eqb b2 b3 = true -> builder_eqb b1 b3 = true).
Proof.
  assert (Hs : forall x y, builder_eqb x y = true <->
            period x = period y /\ burst_size x = burst_size y /\ methods x = methods y).
  { intros x y. unfold builder_eqb, error_handler_eq.
    rewrite andb_true_r, !andb_true_iff, duration_eqb_eq, Z.eqb_eq, methods_eqb_eq.
    tauto. }
  split; [apply Hs|]. split; [apply Hs; auto|]. split.
  - destruct (builder_eqb b1 b2) eqn:H12, (builder_eqb b2 b1) eqn:H21; auto.
    + apply Hs in H12. rewrite <- H21. symmetry. apply Hs. intuition congruence.
    + apply Hs in H21. rewrite <- H12. apply Hs. intuition congruence.
  - rewrite !Hs. intuition congruence.
Qed.

End Middleware.

(** ** The claims on the concrete instance *)

Abbreviation toy_call :=
  (@call Toy.Lim Toy.NotUntil Toy.check Toy.Instant Toy.wait_time_from
         Toy.Response Toy.Req Toy.req_method Toy.Svc Toy.F Toy.inner_call).
Abbreviation toy_poll := (@poll Toy.Response Toy.Ctx Toy.E Toy.F Toy.fut_poll).
Abbreviation toy_finish := (@finish Toy.Lim Toy.direct Toy.Response Toy.Req).
(** A world whose limiter 0 holds [tokens] cells. *)
Abbreviation toy_world tokens :=
  (@mkWorld Toy.Lim Toy.Req 1 (fun _ => tokens) []).
Abbreviation toy_gov ms := (@mkGovernor Toy.Response Toy.Svc 0 ms 0%nat Toy.Rendered).

Lemma call_denied_renders_rejection_witness :
  (forall ms, g_methods (toy_gov (Some [POST])) = Some ms ->
              contains ms (Toy.req_method POST) = true)
  /\ Toy.check (w_cells (toy_world 0) 0%nat) = (0, Err (mkDuration 1 250000000))
  /\ exists w' headers,
       toy_call (toy_world 0) (toy_gov (Some [POST])) POST tt =
         (w', toy_gov (Some [POST]),
          mkResponseFuture (KError (Some (Toy.Rendered
            (TooManyRequests 1 (Some headers))))))
       /\ header_get "x-ratelimit-after" headers = Some "1"
       /\ header_get "retry-after" headers = Some "1".
Proof.
  assert (H1 : forall ms, g_methods (toy_gov (Some [POST])) = Some ms ->
                          contains ms (Toy.req_method POST) = true).
  { intros ms H. injection H as <-. reflexivity. }
  assert (H2 : Toy.check (w_cells (toy_world 0) 0%nat) = (0, Err (mkDuration 1 250000000)))
    by reflexivity.
  split; [exact H1|]. split; [exact H2|].
  destruct (@call_denied_renders_rejection Toy.Lim Toy.NotUntil Toy.check
              Toy.Instant Toy.wait_time_from Toy.Response Toy.Req Toy.req_method
              Toy.Svc Toy.F Toy.inner_call (toy_world 0) (toy_gov (Some [POST]))
              POST tt 0 (mkDuration 1 250000000) H1 H2)
    as (w' & headers & Hc & _ & _ & Hx & Hr & _).
  exists w', headers. split; [exact Hc|]. split; [exact Hx|exact Hr].
Defined.


Lemma call_unfiltered_method_skips_quota_witness :
  toy_call (toy_world 0) (toy_gov (Some [POST])) GET tt
    = (mkWorld 1 (fun _ => 0) [EvInnerCall GET],
       set_inner (toy_gov (Some [POST])) 1%nat, mkResponseFuture (Passthrough GET))
  /\ (exists rest, w_trace (fst (fst (toy_call (toy_world 0) (toy_gov None) GET tt)))
                   = EvCheck 0 :: rest).
Proof.
  destruct (@call_unfiltered_method_skips_quota Toy.Lim Toy.NotUntil Toy.check
              Toy.Instant Toy.wait_time_from Toy.Response Toy.Req Toy.req_method
              Toy.Svc Toy.F Toy.inner_call (toy_world 0) (toy_gov (Some [POST]))
              GET tt) as [Hskip _].
  destruct (@call_unfiltered_method_skips_quota Toy.Lim Toy.NotUntil Toy.check
              Toy.Instant Toy.wait_time_from Toy.Response Toy.Req Toy.req_method
              Toy.Svc Toy.F Toy.inner_call (toy_world 0) (toy_gov None)
              GET tt) as [_ Hnone].
  split.
  - destruct (Hskip [POST] eq_refl eq_refl) as (i & future & Hi & Hc).
    injection Hi as <- <-. exact Hc.
  - exact (Hnone eq_refl).
Defined.

Lemma denied_future_resolves_ok_witness :
  exists w' rf headers,
    toy_call (toy_world 0) (toy_gov None) POST tt = (w', toy_gov None, rf)
    /\ toy_poll rf tt
       = Ret (mkResponseFuture (KError None),
              Ready (Ok (Toy.Rendered (TooManyRequests 1 (Some headers))))).
Proof.
  assert (H1 : forall ms, g_methods (toy_gov None) = Some ms ->
                          contains ms (Toy.req_method POST) = true)
    by discriminate.
  exact (@denied_future_resolves_ok Toy.Lim Toy.NotUntil Toy.check
           Toy.Instant Toy.wait_time_from Toy.Response Toy.Req Toy.req_method
           Toy.Ctx Toy.Svc Toy.E Toy.F Toy.inner_call Toy.fut_poll
           (toy_world 0) (toy_gov None) POST tt 0 (mkDuration 1 250000000) tt
           H1 eq_refl).
Defined.

Lemma error_future_polled_once_witness :
  toy_poll (mkResponseFuture (KError (Some (Toy.Echo "denied")))) tt
    = Ret (mkResponseFuture (KError None), Ready (Ok (Toy.Echo "denied")))
  /\ toy_poll (mkResponseFuture (KError None)) tt = Panic EXPECT_MSG
  /\ exists r', Some (Toy.Rendered (TooManyRequests 1
                  (Some [("x-ratelimit-after", "1"); ("retry-after", "1")])))
                = Some r'.
Proof.
  destruct (@error_future_polled_once Toy.Lim Toy.NotUntil Toy.check
              Toy.Instant Toy.wait_time_from Toy.Response Toy.Req Toy.req_method
              Toy.Ctx Toy.Svc Toy.E Toy.F Toy.inner_call Toy.fut_poll
              (Toy.Echo "denied") tt tt) as (H1 & H2 & H3).
  split; [exact H1|]. split; [exact H2|].
  exact (H3 (toy_world 0) (toy_gov None) POST tt _ _ _ eq_refl).
Defined.

Lemma admitted_request_forwarded_verbatim_witness :
  snd (Toy.check (w_cells (toy_world 3) 0%nat)) = Ok tt
  /\ exists w',
       toy_call (toy_world 3) (toy_gov None) POST tt
         = (w', set_inner (toy_gov None) 1%nat, mkResponseFuture (Passthrough POST))
       /\ toy_poll (mkResponseFuture (Passthrough POST)) tt
          = Ret (mkResponseFuture (Passthrough POST), Ready (Ok (Toy.Echo "ok"))).
Proof.
  assert (Hok : snd (Toy.check (w_cells (toy_world 3) 0%nat)) = Ok tt) by reflexivity.
  split; [exact Hok|].
  destruct (@admitted_request_forwarded_verbatim Toy.Lim Toy.NotUntil Toy.check
              Toy.Instant Toy.wait_time_from Toy.Response Toy.Req Toy.req_method
              Toy.Ctx Toy.Svc Toy.E Toy.F Toy.inner_call Toy.fut_poll
              (toy_world 3) (toy_gov None) POST tt (or_intror Hok))
    as (w' & i & future & pre & Hi & Hc & _ & Hp).
  injection Hi as <- <-.
  exists w'. split; [exact Hc|exact (Hp tt)].
Defined.

Example header_value_of_u64_examples :
  header_value_of_u64 0 = "0" /\ header_value_of_u64 1 = "1"
  /\ header_value_of_u64 18446744073709551615 = "18446744073709551615".
Proof. vm_compute. repeat split. Qed.

Abbreviation toy_call_all :=
  (@call_all Toy.Lim Toy.NotUntil Toy.check Toy.Instant Toy.wait_time_from
             Toy.Response Toy.Req Toy.req_method Toy.Svc Toy.F Toy.inner_call).
Abbreviation toy_builder d n := (@mkBuilder Toy.Response d n None Toy.Rendered).

Lemma finish_allocates_fresh_limiter_witness :
  exists w' c,
    toy_finish (toy_world 0) (toy_builder (from_millis 500) 8) = Ret (w', Some c)
    /\ cfg_limiter c = 1%nat /\ w_cells w' 1%nat = 8.
Proof.
  eexists _, _. split; [reflexivity|].
  destruct (@finish_allocates_fresh_limiter Toy.Lim Toy.direct Toy.Response Toy.Req
              (toy_world 0) _ (toy_builder (from_millis 500) 8) _ eq_refl)
    as (Hl & _ & _ & Hc & _).
  split; [exact Hl|exact Hc].
Defined.

Lemma finish_twice_separate_budgets_witness :
  exists w1 c1 w2 c2,
    toy_finish (toy_world 0) (toy_builder (from_secs 4) 2) = Ret (w1, Some c1)
    /\ toy_finish w1 (toy_builder (from_secs 4) 2) = Ret (w2, Some c2)
    /\ cfg_limiter c1 <> cfg_limiter c2.
Proof.
  eexists _, _, _, _. split; [reflexivity|]. split; [reflexivity|].
  exact (proj1 (@finish_twice_separate_budgets Toy.Lim Toy.direct Toy.Response
           Toy.Req (toy_world 0) _ _ (toy_builder (from_secs 4) 2)
           (toy_builder (from_secs 4) 2) _ _ eq_refl eq_refl)).
Defined.

(** Closes the numeric side conditions on concrete builders. *)
Ltac num_goal :=
  change U64_MAX with 18446744073709551615 in *;
  unfold duration_wf, NANOS_PER_SEC, as_nanos in *;
  cbn -[Z.pow]; lia.

(** With the default burst size of 8, a period of [u64::MAX] seconds makes
    [Duration * u32] overflow inside [Gcra::new]: [finish] panics instead of
    returning [Some] or [None]. *)
Lemma finish_result_cases_counterexample :
  toy_finish (toy_world 0) (per_second (toy_builder DEFAULT_PERIOD DEFAULT_BURST_SIZE) U64_MAX)
    = Panic MUL_OVERFLOW_MSG.
Proof. vm_compute. reflexivity. Defined.

Lemma finish_result_cases_witness :
  (exists w' c, toy_finish (toy_world 0) (toy_builder (from_millis 500) 8) = Ret (w', Some c))
  /\ (exists msg, toy_finish (toy_world 0) (toy_builder (from_secs U64_MAX) 8) = Panic msg)
  /\ toy_finish (toy_world 0) (toy_builder (from_millis 500) 0) = Ret (toy_world 0, None).
Proof.
  split; [|split].
  - apply (proj2 (proj1 (proj2 (@finish_result_cases Toy.Lim Toy.direct Toy.Response Toy.Req
             (toy_world 0) (toy_builder (from_millis 500) 8)
             ltac:(num_goal) ltac:(num_goal))))).
    split; [num_goal|]. split; [vm_compute; discriminate|].
    num_goal.
  - apply (proj1 (proj2 (proj2 (@finish_result_cases Toy.Lim Toy.direct Toy.Response Toy.Req
             (toy_world 0) (toy_builder (from_secs U64_MAX) 8)
             ltac:(num_goal) ltac:(num_goal))))).
    num_goal.
  - apply (proj1 (@finish_result_cases Toy.Lim Toy.direct Toy.Response Toy.Req
             (toy_world 0) (toy_builder (from_millis 500) 0)
             ltac:(num_goal) ltac:(num_goal))).
    left; reflexivity.
Defined.

Lemma per_second_finish_witness :
  (exists w' c, toy_finish (toy_world 0) (per_second (toy_builder DEFAULT_PERIOD 8) 1)
                  = Ret (w', Some c) /\ w_cells w' (cfg_limiter c) = 8)
  /\ (exists msg, toy_finish (toy_world 0) (per_second (toy_builder DEFAULT_PERIOD 8) U64_MAX)
                  = Panic msg).
Proof.
  split.
  - destruct (@per_second_finish Toy.Lim Toy.direct Toy.Response Toy.Req (toy_world 0)
                (toy_builder DEFAULT_PERIOD 8) 1 ltac:(num_goal) ltac:(num_goal)
                ltac:(lia)) as (_ & _ & Hok & _).
    destruct (Hok ltac:(lia) ltac:(num_goal)) as (w' & c & Hf & Hc).
    exists w', c. split; [exact Hf|]. rewrite Hc. reflexivity.
  - destruct (@per_second_finish Toy.Lim Toy.direct Toy.Response Toy.Req (toy_world 0)
                (toy_builder DEFAULT_PERIOD 8) U64_MAX ltac:(num_goal) ltac:(num_goal)
                ltac:(num_goal)) as (_ & _ & _ & Hov).
    apply Hov. num_goal.
Defined.

Lemma per_millisecond_finish_witness :
  (exists w' c, toy_finish (toy_world 0) (per_millisecond (toy_builder DEFAULT_PERIOD 8) 500)
                  = Ret (w', Some c) /\ w_cells w' (cfg_limiter c) = 8)
  /\ (exists msg, toy_finish (toy_world 0)
                    (per_millisecond (toy_builder DEFAULT_PERIOD 8) U64_MAX) = Panic msg).
Proof.
  split.
  - destruct (@per_millisecond_finish Toy.Lim Toy.direct Toy.Response Toy.Req (toy_world 0)
                (toy_builder DEFAULT_PERIOD 8) 500 ltac:(num_goal) ltac:(num_goal)
                ltac:(lia)) as (_ & _ & Hok & _).
    destruct (Hok ltac:(lia) ltac:(num_goal)) as (w' & c & Hf & Hc).
    exists w', c. split; [exact Hf|]. rewrite Hc. reflexivity.
  - destruct (@per_millisecond_finish Toy.Lim Toy.direct Toy.Response Toy.Req (toy_world 0)
                (toy_builder DEFAULT_PERIOD 8) U64_MAX ltac:(num_goal) ltac:(num_goal)
                ltac:(num_goal)) as (_ & _ & _ & Hov).
    apply Hov. num_goal.
Defined.

Lemma per_nanosecond_finish_witness :
  (exists w' c, toy_finish (toy_world 0) (per_nanosecond (toy_builder DEFAULT_PERIOD 8) 1)
                  = Ret (w', Some c) /\ w_cells w' (cfg_limiter c) = 8)
  /\ (exists msg, toy_finish (toy_world 0)
                    (per_nanosecond (toy_builder DEFAULT_PERIOD 8) U64_MAX) = Panic msg).
Proof.
  split.
  - destruct (@per_nanosecond_finish Toy.Lim Toy.direct Toy.Response Toy.Req (toy_world 0)
                (toy_builder DEFAULT_PERIOD 8) 1 ltac:(num_goal) ltac:(num_goal)
                ltac:(lia)) as (_ & _ & Hok & _).
    destruct (Hok ltac:(lia) ltac:(num_goal)) as (w' & c & Hf & Hc).
    exists w', c. split; [exact Hf|]. rewrite Hc. reflexivity.
  - destruct (@per_nanosecond_finish Toy.Lim Toy.direct Toy.Response Toy.Req (toy_world 0)
                (toy_builder DEFAULT_PERIOD 8) U64_MAX ltac:(num_goal) ltac:(num_goal)
                ltac:(num_goal)) as (_ & _ & _ & Hov).
    apply Hov. num_goal.
Defined.

Lemma poll_error_panics_iff_taken_witness :
  toy_poll (mkResponseFuture (KError None)) tt = Panic EXPECT_MSG
  /\ toy_poll (mkResponseFuture (KError (Some (Toy.Echo "denied")))) tt
     = Ret (mkResponseFuture (KError None), Ready (Ok (Toy.Echo "denied"))).
Proof.
  split.
  - apply (proj1 (@poll_error_panics_iff_taken Toy.Response Toy.Ctx Toy.E Toy.F Toy.fut_poll
             None tt) EXPECT_MSG).
    split; reflexivity.
  - exact (proj2 (@poll_error_panics_iff_taken Toy.Response Toy.Ctx Toy.E Toy.F Toy.fut_poll
             (Some (Toy.Echo "denied")) tt) _ eq_refl).
Defined.

(** The rejection headers read back with any letter case. *)
Lemma header_insert_get_witness :
  header_get "X-RATELIMIT-AFTER" (header_insert "x-ratelimit-after" "1" header_new) = Some "1"
  /\ header_get "Retry-After" (header_insert "x-ratelimit-after" "1" [("retry-after", "2")])
     = Some "2".
Proof.
  split.
  - apply (proj1 (header_insert_get "x-ratelimit-after" "1" header_new)).
    vm_compute. reflexivity.
  - rewrite (proj2 (header_insert_get "x-ratelimit-after" "1" [("retry-after", "2")])
               "Retry-After" ltac:(intros H; vm_compute in H; discriminate H)).
    vm_compute. reflexivity.
Defined.

Lemma empty_filter_never_limits_witness :
  forallb is_passthrough
    (snd (toy_call_all (toy_world 0) (toy_gov (Some [])) [GET; POST] tt)) = true
  /\ w_trace (fst (fst (toy_call_all (toy_world 0) (toy_gov (Some [])) [GET; POST] tt)))
     = [EvInnerCall GET; EvInnerCall POST].
Proof.
  destruct (@empty_filter_never_limits Toy.Lim Toy.NotUntil Toy.check Toy.Instant
              Toy.wait_time_from Toy.Response Toy.Req Toy.req_method Toy.Svc Toy.F
              Toy.inner_call (toy_world 0) (toy_gov (Some [])) [GET; POST] tt eq_refl)
    as (_ & H2 & H3).
  split; [exact H3|exact H2].
Defined.

(** A limiter holding three cells, four requests: three pass, the fourth
    is rejected. *)
Lemma call_all_follows_checks_witness :
  map is_passthrough
    (snd (toy_call_all (toy_world 3) (toy_gov None) [GET; GET; POST; GET] tt))
  = [true; true; true; false].
Proof.
  etransitivity;
    [exact (@call_all_follows_checks Toy.Lim Toy.NotUntil Toy.check Toy.Instant
              Toy.wait_time_from Toy.Response Toy.Req Toy.req_method Toy.Svc Toy.F
              Toy.inner_call (toy_world 3) (toy_gov None) [GET; GET; POST; GET] tt
              eq_refl)
    |reflexivity].
Defined.

Lemma call_touches_only_own_limiter_witness :
  w_cells (fst (fst (toy_call (toy_world 3) (toy_gov None) POST tt))) 1%nat = 3.
Proof.
  exact (proj2 (@call_touches_only_own_limiter Toy.Lim Toy.NotUntil Toy.check
           Toy.Instant Toy.wait_time_from Toy.Response Toy.Req Toy.req_method
           Toy.Svc Toy.F Toy.inner_call (toy_world 3) (toy_gov None) POST tt)
           1%nat ltac:(discriminate)).
Defined.


Lemma builder_eqb_spec_witness :
  builder_eqb (toy_builder (from_secs 4) 2)
    (@mkBuilder Toy.Response (from_secs 4) 2 None (fun _ => Toy.Echo "custom")) = true
  /\ builder_eqb (toy_builder (from_secs 4) 2) (toy_builder (from_secs 4) 2) = true.
Proof.
  assert (H12 : builder_eqb (toy_builder (from_secs 4) 2)
    (@mkBuilder Toy.Response (from_secs 4) 2 None (fun _ => Toy.Echo "custom")) = true)
    by reflexivity.
  split; [exact H12|].
  apply (proj2 (proj2 (proj2 (builder_eqb_spec (toy_builder (from_secs 4) 2)
           (@mkBuilder Toy.Response (from_secs 4) 2 None (fun _ => Toy.Echo "custom"))
           (toy_builder (from_secs 4) 2))))).
  - exact H12.
  - reflexivity.
Defined.
